(** * Inspection validation and lot disposition of the quality dashboard

    Shallow embedding of
    - [src/hooks/useInspection.ts] (static validator: [calculateStatus],
      [updateSpec], [resetSpecs] and the derived counts),
    - [InspectorView] in [src/unnamed/part_006] ([handleApprove],
      [handleReject] and the confirmation dialog that calls them),
    - [DynamicInspectionForm] in [src/components/features/quality/index.ts]
      (the field validators, [getValue] and [updateValue]) and the
      [stats] of [useDynamicInspection] in the same file,
    - [handleUpdateSpec] of [src/app/page.tsx] and of
      [src/context/PartConfigContext.tsx], and [handleEndShift] of the latter,
    - [PartialShipmentTracker] in
      [src/components/features/quality/PartialShipmentTracker.tsx]
      ([calculations], [validateQty], [handleAddShipment]).

    JavaScript numbers are modelled by rationals [Q]: on finite doubles the
    comparisons [<], [<=], [>=], [>] agree with those of their rational
    values. Integer ids are [Z], string ids [string]. *)

From Stdlib Require Import QArith ZArith String Ascii List Bool Lia Lqa.
Import ListNotations.
Open Scope string_scope.
Open Scope list_scope.

(** ** Data model ([InspectionSpec] of lib/data) *)

Inductive Status := Pending | Pass | Fail.

Definition Status_eqb (a b : Status) : bool :=
  match a, b with
  | Pending, Pending | Pass, Pass | Fail, Fail => true
  | _, _ => false
  end.

Record InspectionSpec := mkSpec {
  id : Z;
  characteristic : string;
  tool : string;
  min : Q;
  max : Q;
  actual : option Q;   (** [number | null] *)
  status : Status
}.

(** ** Static validator ([useInspection.ts]) *)

(** [calculateStatus]: [null] is pending, otherwise both bounds inclusive. *)
Definition calculateStatus (actual : option Q) (min max : Q) : Status :=
  match actual with
  | None => Pending
  | Some a => if Qle_bool min a && Qle_bool a max then Pass else Fail
  end.

(** [{ ...spec, actual, status }] *)
Definition set_actual (spec : InspectionSpec) (a : option Q) (st : Status)
  : InspectionSpec :=
  mkSpec spec.(id) spec.(characteristic) spec.(tool) spec.(min) spec.(max) a st.

(** The function passed to [setSpecs] by [updateSpec(id, actual)]. *)
Definition updateSpec (i : Z) (a : option Q) (prevSpecs : list InspectionSpec)
  : list InspectionSpec :=
  map (fun spec =>
         if negb (Z.eqb spec.(id) i) then spec
         else set_actual spec a (calculateStatus a spec.(min) spec.(max)))
      prevSpecs.

(** The state held by the hook: [specs], [lotReleased], [lotRejected]. *)
Record HookState := mkHook {
  specs : list InspectionSpec;
  lotReleased : bool;
  lotRejected : bool
}.

(** [resetSpecs]: rebuilt from [initialSpecs], the hook's argument. *)
Definition resetSpecs (initialSpecs : list InspectionSpec) (_ : HookState)
  : HookState :=
  mkHook (map (fun spec => set_actual spec None Pending) initialSpecs)
         false false.

(** Derived values, recomputed on every render. *)
Definition countStatus (st : Status) (l : list InspectionSpec) : nat :=
  length (filter (fun s => Status_eqb s.(status) st) l).

Definition passCount (l : list InspectionSpec) : nat := countStatus Pass l.
Definition failCount (l : list InspectionSpec) : nat := countStatus Fail l.
Definition pendingCount (l : list InspectionSpec) : nat := countStatus Pending l.

Definition allPassed (l : list InspectionSpec) : bool :=
  Nat.eqb (passCount l) (length l) && Nat.ltb 0 (length l).

Definition hasFailed (l : list InspectionSpec) : bool :=
  Nat.ltb 0 (failCount l).

(** The data-model invariant: [status] is [calculateStatus] of the entry. *)
Definition spec_consistent (s : InspectionSpec) : Prop :=
  s.(status) = calculateStatus s.(actual) s.(min) s.(max).

Lemma in_range_iff (mn a mx : Q) :
  Qle_bool mn a && Qle_bool a mx = true <-> (mn <= a /\ a <= mx)%Q.
Proof.
  rewrite andb_true_iff, !Qle_bool_iff. reflexivity.
Qed.

(** [INITIAL_SPECS] of lib/data ([src/unnamed/part_008]). *)
Definition INITIAL_SPECS : list InspectionSpec :=
  [ mkSpec 1 "Distancia" "Vernier" (47#100) (53#100) None Pending;
    mkSpec 2 "Radio" "Vernier" (22#100) (28#100) None Pending;
    mkSpec 3 "Diametro Hole" "Pin Gauge" (25#100) (31#100) None Pending;
    mkSpec 4 "Angulo" "Protractor" (445#10) (455#10) None Pending ].

(** ** Lot disposition ([InspectorView], [src/unnamed/part_006]) *)

(** [confirmDialog: "approve" | "reject" | null] *)
Inductive Dialog := DApprove | DReject.

(** Observable effects of the handlers: toasts and the certificate call. *)
Inductive Effect :=
| ToastError (title description : string)
| ToastSuccess (title description : string)
| GenerateCertificate.

(** The specs and flags owned by the page, and the view's dialog state. *)
Record ViewState := mkView {
  inspectionSpecs : list InspectionSpec;
  released : bool;
  rejected : bool;
  confirmDialog : option Dialog
}.

Definition with_specs (s : ViewState) (l : list InspectionSpec) : ViewState :=
  mkView l s.(released) s.(rejected) s.(confirmDialog).
Definition with_released (s : ViewState) (b : bool) : ViewState :=
  mkView s.(inspectionSpecs) b s.(rejected) s.(confirmDialog).
Definition with_rejected (s : ViewState) (b : bool) : ViewState :=
  mkView s.(inspectionSpecs) s.(released) b s.(confirmDialog).
Definition with_dialog (s : ViewState) (d : option Dialog) : ViewState :=
  mkView s.(inspectionSpecs) s.(released) s.(rejected) d.

(** [inspectionSpecs.some((s) => s.status === "fail")] *)
Definition hasFailures (l : list InspectionSpec) : bool :=
  existsb (fun s => Status_eqb s.(status) Fail) l.

(** [inspectionSpecs.every((s) => s.actual !== null)] *)
Definition allInspected (l : list InspectionSpec) : bool :=
  forallb (fun s => match s.(actual) with None => false | Some _ => true end) l.

Definition allPass (l : list InspectionSpec) : bool :=
  allInspected l && negb (hasFailures l).

Definition msg_failures : string :=
  "Cannot approve: there are out-of-tolerance readings".
Definition msg_failures_desc : string :=
  "All dimensional inspections must pass before release.".
Definition msg_incomplete : string :=
  "Cannot approve: not all characteristics inspected".
Definition msg_incomplete_desc : string :=
  "Please enter actual readings for all characteristics.".
Definition msg_cert_error : string := "Error generating certificate".
Definition msg_cert_error_desc : string := "Please try again or contact support.".
Definition msg_approved : string := "Lot #296039 APPROVED for release".
Definition msg_approved_desc : string :=
  "Certificate of Conformance generated and downloaded.".
Definition msg_rejected : string := "Lot #296039 REJECTED".
Definition msg_rejected_desc : string := "Non-conformance report will be generated.".

(** [handleApprove]; [certificate_throws] says whether
    [generateCertificatePDF(DEMO_CERTIFICATE_DATA)] throws. *)
Definition handleApprove (certificate_throws : bool) (s : ViewState)
  : ViewState * list Effect :=
  if hasFailures s.(inspectionSpecs) then
    (with_dialog s None, [ToastError msg_failures msg_failures_desc])
  else if negb (allInspected s.(inspectionSpecs)) then
    (with_dialog s None, [ToastError msg_incomplete msg_incomplete_desc])
  else
    let tried :=
      if certificate_throws
      then [GenerateCertificate; ToastError msg_cert_error msg_cert_error_desc]
      else [GenerateCertificate; ToastSuccess msg_approved msg_approved_desc] in
    (with_dialog (with_released s true) None, tried).

(** [handleReject] *)
Definition handleReject (s : ViewState) : ViewState * list Effect :=
  (with_dialog (with_rejected s true) None,
   [ToastError msg_rejected msg_rejected_desc]).

(** User actions on the inspector screen, and the hook's reset. *)
Inductive Action :=
| ClickApprove                  (** "APPROVE RELEASE" button *)
| ClickReject                   (** "REJECT LOT" button *)
| CancelDialog                  (** Cancel button or [onOpenChange] *)
| ConfirmApprove (certificate_throws : bool)
| ConfirmReject
| EditActual (i : Z) (a : option Q)   (** [onUpdateSpec] from an input *)
| Reset.                        (** [resetSpecs] *)

(** One UI step; [None] when the control is not rendered or is disabled:
    the verdict buttons exist only while neither flag is set, the dialog's
    confirm button only while the dialog is open, and the inputs are
    disabled once the lot is released or rejected. *)
Definition ui_step (initialSpecs : list InspectionSpec) (s : ViewState)
  (act : Action) : option (ViewState * list Effect) :=
  let open_lot := negb s.(released) && negb s.(rejected) in
  match act with
  | ClickApprove =>
      if open_lot then Some (with_dialog s (Some DApprove), []) else None
  | ClickReject =>
      if open_lot then Some (with_dialog s (Some DReject), []) else None
  | CancelDialog =>
      match s.(confirmDialog) with
      | Some _ => Some (with_dialog s None, [])
      | None => None
      end
  | ConfirmApprove t =>
      match s.(confirmDialog) with
      | Some DApprove => Some (handleApprove t s)
      | _ => None
      end
  | ConfirmReject =>
      match s.(confirmDialog) with
      | Some DReject => Some (handleReject s)
      | _ => None
      end
  | EditActual i a =>
      if open_lot
      then Some (with_specs s (updateSpec i a s.(inspectionSpecs)), [])
      else None
  | Reset =>
      let h := resetSpecs initialSpecs
                 (mkHook s.(inspectionSpecs) s.(released) s.(rejected)) in
      Some (mkView h.(specs) h.(lotReleased) h.(lotRejected) s.(confirmDialog), [])
  end.

Definition initialView (initialSpecs : list InspectionSpec) : ViewState :=
  mkView initialSpecs false false None.

Inductive reachable (initialSpecs : list InspectionSpec) : ViewState -> Prop :=
| reach_init : reachable initialSpecs (initialView initialSpecs)
| reach_step s act s' eff :
    reachable initialSpecs s ->
    ui_step initialSpecs s act = Some (s', eff) ->
    reachable initialSpecs s'.

Definition count_certificates (eff : list Effect) : nat :=
  length (filter (fun e => match e with GenerateCertificate => true | _ => false end) eff).

(** ** Dynamic field validator ([DynamicInspectionForm]) *)

Inductive FieldType := Numeric | BooleanField | SelectField.

Record FieldDefinition := mkField {
  field_id : string;
  name : string;
  type : FieldType;
  required : bool;
  fmin : option Q;          (** [min?: number], [None] is [undefined] *)
  fmax : option Q;          (** [max?: number] *)
  options : option (list string);
  ftool : option string
}.

(** [number | boolean | string | null] *)
Inductive JSValue := VNum (q : Q) | VBool (b : bool) | VStr (s : string) | VNull.

Record InspectionValue := mkValue {
  fieldId : string;
  value : JSValue;
  vstatus : Status
}.

(** [x < y] on numbers. *)
Definition Qltb (x y : Q) : bool := negb (Qle_bool y x).

(** [validateNumericField(value, min?, max?)] *)
Definition validateNumericField (value : option Q) (min max : option Q) : Status :=
  match value with
  | None => Pending
  | Some v =>
      if match min with Some m => Qltb v m | None => false end then Fail
      else if match max with Some m => Qltb m v | None => false end then Fail
      else Pass
  end.

(** [validateBooleanField(value)] *)
Definition validateBooleanField (value : option bool) : Status :=
  match value with
  | None => Pending
  | Some b => if b then Pass else Fail
  end.

(** JavaScript truthiness of a [string | null]. *)
Definition str_truthy (value : option string) : bool :=
  match value with
  | None => false
  | Some v => negb (String.eqb v "")
  end.

(** [validateSelectField(value, required)] *)
Definition validateSelectField (value : option string) (required : bool) : Status :=
  if required && (negb (str_truthy value)
                  || match value with Some v => String.eqb v "" | None => false end)
  then Pending
  else if str_truthy value then Pass else Pending.

Section UpdateValue.

(** The status the validators give to a value whose runtime kind is not the
    one of the field ([newValue as number | null] is only a type cast): the
    widgets never produce such values (the numeric input sends a number or
    [null], the switch a boolean, the select a string), so it is left open. *)
Variable mismatch_status : FieldDefinition -> JSValue -> Status.

(** The [switch (field.type)] of [updateValue]. *)
Definition fieldStatus (field : FieldDefinition) (newValue : JSValue) : Status :=
  match field.(type), newValue with
  | Numeric, VNum q => validateNumericField (Some q) field.(fmin) field.(fmax)
  | Numeric, VNull => validateNumericField None field.(fmin) field.(fmax)
  | BooleanField, VBool b => validateBooleanField (Some b)
  | BooleanField, VNull => validateBooleanField None
  | SelectField, VStr v => validateSelectField (Some v) field.(required)
  | SelectField, VNull => validateSelectField None field.(required)
  | _, _ => mismatch_status field newValue
  end.

(** [updateValue(fieldId, newValue, field)]: the list handed to
    [onValuesChange]. *)
Definition updateValue (values : list InspectionValue) (fid : string)
  (newValue : JSValue) (field : FieldDefinition) : list InspectionValue :=
  filter (fun v => negb (String.eqb v.(fieldId) fid)) values
    ++ [mkValue fid newValue (fieldStatus field newValue)].

(** A sequence of edits applied one after another, each to the list produced
    by the previous one. *)
Definition applyEdits (values : list InspectionValue)
  (edits : list (string * JSValue * FieldDefinition)) : list InspectionValue :=
  fold_left (fun vs '(fid, v, f) => updateValue vs fid v f) edits values.

End UpdateValue.

(** The ids of a list, each kept at its last occurrence only. *)
Fixpoint dedup_last (l : list string) : list string :=
  match l with
  | [] => []
  | x :: t => if existsb (String.eqb x) t then dedup_last t else x :: dedup_last t
  end.

(** ** Callers of the static validator *)

(** [handleUpdateSpec] of the page ([src/app/page.tsx] and the copy in
    [DashboardContent], [src/context/PartConfigContext.tsx]): the function
    given to [setInspectionSpecs]. *)
Definition handleUpdateSpec (i : Z) (a : option Q) (prev : list InspectionSpec)
  : list InspectionSpec :=
  map (fun spec =>
         if negb (Z.eqb spec.(id) i) then spec
         else match a with
              | None => set_actual spec None Pending
              | Some x =>
                  let st := if Qle_bool spec.(min) x && Qle_bool x spec.(max)
                            then Pass else Fail in
                  set_actual spec (Some x) st
              end)
      prev.

(** The inspection part of [handleEndShift] ([DashboardContent]):
    [setInspectionSpecs(INITIAL_SPECS)], both flags cleared. *)
Definition handleEndShift (template : list InspectionSpec) (_ : HookState)
  : HookState :=
  mkHook template false false.

(** ** Dynamic inspection: lookup and summary *)

(** [getValue(fieldId)] of [DynamicInspectionForm]. *)
Definition getValue (values : list InspectionValue) (fid : string)
  : InspectionValue :=
  match find (fun v => String.eqb v.(fieldId) fid) values with
  | Some v => v
  | None => mkValue fid VNull Pending
  end.

Record DynStats := mkStats {
  total : nat;
  completed : nat;
  passed : nat;
  failed : nat;
  stats_allInspected : bool;
  stats_allPass : bool;
  stats_hasFailures : bool
}.

(** The [stats] memo of [useDynamicInspection(fields)]. *)
Definition dynStats (fields : list FieldDefinition) (values : list InspectionValue)
  : DynStats :=
  let total := length fields in
  let completed := length (filter (fun v => negb (Status_eqb v.(vstatus) Pending)) values) in
  let passed := length (filter (fun v => Status_eqb v.(vstatus) Pass) values) in
  let failed := length (filter (fun v => Status_eqb v.(vstatus) Fail) values) in
  let allInspected := Nat.eqb completed total in
  let allPass := allInspected && Nat.eqb failed 0 && Nat.ltb 0 total in
  mkStats total completed passed failed allInspected allPass (Nat.ltb 0 failed).

(** The values [stats.completed] counts. *)
Definition nonpending (v : InspectionValue) : bool :=
  negb (Status_eqb v.(vstatus) Pending).

(** ** Partial shipments ([PartialShipmentTracker.tsx]) *)

(** Strings are taken to be ASCII; the whitespace recognised by [trim] and
    [parseInt] is then tab, line feed, vertical tab, form feed, carriage
    return and space. *)
Definition is_ws (c : ascii) : bool :=
  existsb (Nat.eqb (nat_of_ascii c)) [9; 10; 11; 12; 13; 32]%nat.

Fixpoint trim_start (s : string) : string :=
  match s with
  | EmptyString => EmptyString
  | String c r => if is_ws c then trim_start r else s
  end.

Fixpoint trim_end (s : string) : string :=
  match s with
  | EmptyString => EmptyString
  | String c r =>
      let r' := trim_end r in
      if is_ws c && String.eqb r' "" then EmptyString else String c r'
  end.

(** [String.prototype.trim] *)
Definition js_trim (s : string) : string := trim_end (trim_start s).

Definition digit_value (c : ascii) : option Z :=
  let n := nat_of_ascii c in
  if Nat.leb 48 n && Nat.leb n 57 then Some (Z.of_nat n - 48)%Z else None.

(** The value of the longest prefix of decimal digits, [None] when it is
    empty. *)
Fixpoint read_digits (s : string) (acc : Z) (seen : bool) : option Z :=
  match s with
  | String c r =>
      match digit_value c with
      | Some d => read_digits r (acc * 10 + d)%Z true
      | None => if seen then Some acc else None
      end
  | EmptyString => if seen then Some acc else None
  end.

(** [parseInt(value, 10)]; [None] is [NaN]. Integers are exact ([Z]), also
    beyond 2^53 where a double would round. *)
Definition parseInt10 (value : string) : option Z :=
  let s := trim_start value in
  let '(sign, rest) :=
    match s with
    | String c r =>
        if Ascii.eqb c "-"%char then ((-1)%Z, r)
        else if Ascii.eqb c "+"%char then (1%Z, r)
        else (1%Z, s)
    | EmptyString => (1%Z, s)
    end in
  option_map (Z.mul sign) (read_digits rest 0 false).

Inductive QtyError :=
| QtyRequired                  (** "Quantity is required" *)
| QtyInvalid                   (** "Invalid number" *)
| QtyNotPositive               (** "Quantity must be greater than 0" *)
| QtyExceeds (remaining : Q).  (** "Cannot exceed remaining quantity (r)" *)

(** [validateQty(value)], [remaining] being [calculations.remainingQty]. *)
Definition validateQty (remaining : Q) (value : string) : option QtyError :=
  if String.eqb (js_trim value) "" then Some QtyRequired
  else match parseInt10 value with
       | None => Some QtyInvalid
       | Some q =>
           if (q <=? 0)%Z then Some QtyNotPositive
           else if Qltb remaining (inject_Z q) then Some (QtyExceeds remaining)
           else None
       end.

Record PartialShipment := mkShipment {
  ship_id : string;
  orderId : string;
  lotNumber : string;
  quantity : Q;
  timestamp : string;
  inspectedBy : string
}.

(** [shipments.reduce((sum, s) => sum + s.quantity, 0)], summed exactly:
    the code's double sum agrees with it as long as every partial sum is an
    integer of at most 2^53, and rounds beyond. The same holds for
    [remainingQty]. *)
Definition shippedQty (shipments : list PartialShipment) : Q :=
  fold_left (fun sum s => sum + s.(quantity)) shipments 0.

Definition remainingQty (totalQty : Q) (shipments : list PartialShipment) : Q :=
  totalQty - shippedQty shipments.

Definition isComplete (totalQty : Q) (shipments : list PartialShipment) : bool :=
  Qle_bool (remainingQty totalQty shipments) 0.

(** The tracker's props and local state; [onAddShipment] is the
    [addShipment] of [usePartialShipments], which appends. *)
Record Tracker := mkTracker {
  t_orderId : string;
  t_lotNumber : string;
  totalQty : Q;
  inspectorName : string;
  shipments : list PartialShipment;
  showAddDialog : bool;
  inputQty : string;
  inputError : option QtyError
}.

(** [handleAddShipment]; [now_id] and [now_iso] stand for [Date.now()] and
    [new Date().toISOString()]. The success toast is not modelled. *)
Definition handleAddShipment (now_id now_iso : string) (t : Tracker) : Tracker :=
  let remaining := remainingQty t.(totalQty) t.(shipments) in
  match validateQty remaining t.(inputQty) with
  | Some e =>
      mkTracker t.(t_orderId) t.(t_lotNumber) t.(totalQty) t.(inspectorName)
                t.(shipments) t.(showAddDialog) t.(inputQty) (Some e)
  | None =>
      let qty := match parseInt10 t.(inputQty) with Some q => q | None => 0%Z end in
      let newShipment :=
        mkShipment ("ship-" ++ now_id) t.(t_orderId) t.(t_lotNumber)
                   (inject_Z qty) now_iso t.(inspectorName) in
      mkTracker t.(t_orderId) t.(t_lotNumber) t.(totalQty) t.(inspectorName)
                (t.(shipments) ++ [newShipment]) false "" None
  end.

(** ** Helper lemmas *)

Lemma Status_eqb_true (a b : Status) : Status_eqb a b = true <-> a = b.
Proof. destruct a, b; simpl; split; intros H; congruence. Qed.

Lemma hasFailures_iff (l : list InspectionSpec) :
  hasFailures l = true <-> Exists (fun e => e.(status) = Fail) l.
Proof.
  unfold hasFailures. rewrite existsb_exists, Exists_exists.
  split; intros [x [Hx Hs]]; exists x; split; auto; apply Status_eqb_true; auto.
Qed.

Lemma allInspected_iff (l : list InspectionSpec) :
  allInspected l = true <-> Forall (fun e => e.(actual) <> None) l.
Proof.
  unfold allInspected. rewrite forallb_forall, Forall_forall.
  split; intros H x Hx; specialize (H x Hx).
  - destruct (actual x); congruence.
  - destruct (actual x); congruence.
Qed.

(** Under the data-model invariant an entry is [Pending] exactly when its
    [actual] is absent. *)
Lemma consistent_pending (e : InspectionSpec) :
  spec_consistent e -> (e.(status) = Pending <-> e.(actual) = None).
Proof.
  unfold spec_consistent. intros ->. destruct (actual e) as [a |]; simpl.
  - destruct (Qle_bool (min e) a && Qle_bool a (max e)); split; congruence.
  - split; reflexivity.
Qed.

Lemma consistent_pending_exists (l : list InspectionSpec) :
  Forall spec_consistent l ->
  (Exists (fun e => e.(status) = Pending) l <-> ~ Forall (fun e => e.(actual) <> None) l).
Proof.
  intros Hc. rewrite Exists_exists, Forall_forall. rewrite Forall_forall in Hc.
  split.
  - intros [x [Hx Hp]] H. apply (H x Hx). apply consistent_pending; auto.
  - intros H. destruct (existsb (fun e => match e.(actual) with None => true
                                          | Some _ => false end) l) eqn:E.
    + apply existsb_exists in E as [x [Hx Ha]]. exists x. split; auto.
      apply consistent_pending; auto. destruct (actual x); congruence.
    + exfalso. apply H. intros x Hx Ha.
      assert (In x l /\ (match x.(actual) with None => true | Some _ => false end) = true)
        as Hin by (rewrite Ha; auto).
      rewrite <- not_true_iff_false in E. apply E, existsb_exists. exists x. exact Hin.
Qed.

(** The disposition invariant: at most one flag is set, and an open dialog
    implies an open lot. *)
Definition disposition_inv (s : ViewState) : bool :=
  negb (s.(released) && s.(rejected)) &&
  match s.(confirmDialog) with
  | Some _ => negb s.(released) && negb s.(rejected)
  | None => true
  end.

Lemma handleApprove_flags (t : bool) (s : ViewState) :
  (fst (handleApprove t s)).(rejected) = s.(rejected) /\
  (fst (handleApprove t s)).(confirmDialog) = None /\
  ((fst (handleApprove t s)).(released) = s.(released) \/
   (fst (handleApprove t s)).(released) = true).
Proof.
  unfold handleApprove.
  destruct (hasFailures _); [| destruct (allInspected _)]; simpl; auto.
Qed.

Lemma ui_step_inv (init : list InspectionSpec) (s s' : ViewState)
  (act : Action) (eff : list Effect) :
  ui_step init s act = Some (s', eff) ->
  disposition_inv s = true -> disposition_inv s' = true.
Proof.
  unfold disposition_inv.
  destruct s as [l r j d]; destruct act as [| | | t | | i a |]; simpl;
    intros Hs Hi.
  - destruct r, j; simpl in Hs; try discriminate.
    injection Hs as <- <-. reflexivity.
  - destruct r, j; simpl in Hs; try discriminate.
    injection Hs as <- <-. reflexivity.
  - destruct d; [| discriminate]. injection Hs as <- <-. simpl.
    destruct r, j; simpl in *; congruence.
  - destruct d as [[|] |]; try discriminate. injection Hs as Hs.
    destruct (handleApprove_flags t (mkView l r j (Some DApprove))) as [Hj [Hd _]].
    rewrite Hs in Hj, Hd. simpl in Hj, Hd. rewrite Hj, Hd.
    destruct r, j; simpl in Hi; try discriminate.
    destruct (released s'); reflexivity.
  - destruct d as [[|] |]; try discriminate. injection Hs as <- _. simpl.
    destruct r, j; simpl in Hi; try discriminate. reflexivity.
  - destruct r, j; simpl in Hs; try discriminate.
    injection Hs as <- _. simpl. destruct d; reflexivity.
  - injection Hs as <- _. simpl. destruct d; reflexivity.
Qed.

Lemma reachable_inv (init : list InspectionSpec) (s : ViewState) :
  reachable init s -> disposition_inv s = true.
Proof.
  induction 1 as [| s act s' eff _ IH Hs].
  - reflexivity.
  - eapply ui_step_inv; eassumption.
Qed.

Lemma Qltb_true (x y : Q) : Qltb x y = true <-> ~ (y <= x)%Q.
Proof.
  unfold Qltb. rewrite negb_true_iff, <- Qle_bool_iff.
  destruct (Qle_bool y x); split; congruence.
Qed.

Lemma Qltb_false (x y : Q) : Qltb x y = false <-> (y <= x)%Q.
Proof. unfold Qltb. rewrite negb_false_iff. apply Qle_bool_iff. Qed.

Lemma validateNumericField_not_pending (v : Q) (mn mx : option Q) :
  validateNumericField (Some v) mn mx <> Pending.
Proof.
  destruct mn as [m |], mx as [M |]; simpl;
    repeat match goal with |- context [Qltb ?a ?b] => destruct (Qltb a b) end;
    discriminate.
Qed.

(** Keys of the values list, and the key filter of [updateValue]. *)
Definition keys (vs : list InspectionValue) : list string := map fieldId vs.

Definition not_key (fid : string) (k : string) : bool := negb (String.eqb k fid).
Arguments not_key : simpl never.

Lemma not_key_false (fid k : string) : not_key fid k = false <-> k = fid.
Proof. unfold not_key. rewrite negb_false_iff. apply String.eqb_eq. Qed.

Lemma not_key_true (fid k : string) : not_key fid k = true <-> k <> fid.
Proof. unfold not_key. rewrite negb_true_iff. apply String.eqb_neq. Qed.

Lemma keys_filter (fid : string) (vs : list InspectionValue) :
  keys (filter (fun v => negb (String.eqb v.(fieldId) fid)) vs) =
  filter (not_key fid) (keys vs).
Proof.
  induction vs as [| v t IH]; [reflexivity |]. simpl.
  change (negb (String.eqb (fieldId v) fid)) with (not_key fid (fieldId v)).
  destruct (not_key fid (fieldId v)); simpl; rewrite IH; reflexivity.
Qed.

Lemma filter_idem {A : Type} (f : A -> bool) (l : list A) :
  filter f (filter f l) = filter f l.
Proof.
  induction l as [| x t IH]; [reflexivity |]. simpl.
  destruct (f x) eqn:E; simpl; rewrite ?E, IH; reflexivity.
Qed.

Lemma not_in_filter_not_key (fid : string) (l : list string) :
  ~ In fid (filter (not_key fid) l).
Proof.
  intros H. apply filter_In in H as [_ H]. apply not_key_true in H.
  apply H. reflexivity.
Qed.

Lemma dedup_last_nodup (l : list string) : NoDup l -> dedup_last l = l.
Proof.
  induction 1 as [| x t Hx _ IH]; [reflexivity |]. simpl.
  destruct (existsb (String.eqb x) t) eqn:E.
  - apply existsb_exists in E as [y [Hy Exy]].
    apply String.eqb_eq in Exy. subst y. contradiction.
  - rewrite IH. reflexivity.
Qed.

Lemma existsb_filter_not_key (x i : string) (K L : list string) :
  x <> i ->
  existsb (String.eqb x) (filter (not_key i) K ++ L) =
  existsb (String.eqb x) (K ++ L).
Proof.
  intros Hxi. induction K as [| k K IH]; [reflexivity |]. simpl.
  destruct (not_key i k) eqn:Eki; simpl.
  - rewrite IH. reflexivity.
  - apply not_key_false in Eki. subst k.
    apply String.eqb_neq in Hxi. rewrite Hxi. exact IH.
Qed.

(** Dropping earlier copies of a key that occurs again later does not change
    the last occurrences. *)
Lemma dedup_last_drop (i : string) (K L : list string) :
  In i L -> dedup_last (K ++ L) = dedup_last (filter (not_key i) K ++ L).
Proof.
  intros Hi. induction K as [| x K IH]; [reflexivity |]. simpl.
  destruct (not_key i x) eqn:Exi; simpl.
  - apply not_key_true in Exi.
    rewrite existsb_filter_not_key by exact Exi.
    destruct (existsb (String.eqb x) (K ++ L)); rewrite IH; reflexivity.
  - apply not_key_false in Exi. subst x.
    assert (E : existsb (String.eqb i) (K ++ L) = true).
    { apply existsb_exists. exists i. split; [apply in_or_app; auto |].
      apply String.eqb_refl. }
    rewrite E. exact IH.
Qed.

Section UpdateValueFacts.

Variable mismatch_status : FieldDefinition -> JSValue -> Status.

Lemma updateValue_keys (vs : list InspectionValue) fid nv f :
  keys (updateValue mismatch_status vs fid nv f) =
  filter (not_key fid) (keys vs) ++ [fid].
Proof.
  unfold updateValue. unfold keys at 1. rewrite map_app. simpl.
  f_equal. apply keys_filter.
Qed.

Lemma updateValue_nodup (vs : list InspectionValue) fid nv f :
  NoDup (keys vs) -> NoDup (keys (updateValue mismatch_status vs fid nv f)).
Proof.
  intros H. rewrite updateValue_keys. apply NoDup_app.
  - apply NoDup_filter, H.
  - constructor; [intros [] | constructor].
  - intros a Ha [-> | []]. apply (not_in_filter_not_key a (keys vs) Ha).
Qed.

Lemma applyEdits_keys (edits : list (string * JSValue * FieldDefinition)) :
  forall vs, NoDup (keys vs) ->
  keys (applyEdits mismatch_status vs edits) =
  dedup_last (keys vs ++ map (fun '(fid, _, _) => fid) edits).
Proof.
  induction edits as [| [[i v] f] es IH]; intros vs Hnd; simpl.
  - rewrite app_nil_r. symmetry. apply dedup_last_nodup, Hnd.
  - unfold applyEdits in *. simpl. rewrite IH by (apply updateValue_nodup, Hnd).
    rewrite updateValue_keys, <- app_assoc. simpl.
    symmetry. apply dedup_last_drop. left. reflexivity.
Qed.

End UpdateValueFacts.

(** ** Small checks *)

Example calculateStatus_ex1 : calculateStatus (Some (1#2)) (47#100) (53#100) = Pass.
Proof. reflexivity. Qed.

Example calculateStatus_ex2 : calculateStatus (Some (6#10)) (47#100) (53#100) = Fail.
Proof. reflexivity. Qed.

Example numeric_max_only_below : validateNumericField (Some 1) None (Some 2) = Pass.
Proof. reflexivity. Qed.

Example numeric_max_only_above : validateNumericField (Some 3) None (Some 2) = Fail.
Proof. reflexivity. Qed.

Example select_required_empty : validateSelectField None true = Pending.
Proof. reflexivity. Qed.

Example dedup_last_ex : dedup_last ["a"; "b"; "a"] = ["b"; "a"].
Proof. reflexivity. Qed.

Example scenario_fail_then_reject :
  let s := mkView (updateSpec 1 (Some (6#10)) INITIAL_SPECS) false false
                  (Some DApprove) in
  snd (handleApprove false s) = [ToastError msg_failures msg_failures_desc] /\
  (fst (handleReject (fst (handleApprove false s)))).(rejected) = true /\
  (fst (handleReject (fst (handleApprove false s)))).(released) = false.
Proof. split; [reflexivity | split; reflexivity]. Qed.

(** ** Claims *)

(** C1: [calculateStatus actual min max] is [Pending] when [actual] is absent
    (whatever the bounds), and for a present [actual] it is [Pass] exactly when
    [min <= actual <= max] (both bounds inclusive) and [Fail] exactly
    otherwise; it is a pure function of [(actual, min, max)]. *)
Theorem calculateStatus_spec :
  forall (mn mx : Q),
    calculateStatus None mn mx = Pending /\
    (forall a : Q,
       (calculateStatus (Some a) mn mx = Pass <-> (mn <= a /\ a <= mx)%Q) /\
       (calculateStatus (Some a) mn mx = Fail <-> ~ (mn <= a /\ a <= mx)%Q)).
Proof.
  intros mn mx. split; [reflexivity |].
  intros a. simpl.
  pose proof (in_range_iff mn a mx) as R.
  destruct (Qle_bool mn a && Qle_bool a mx); split; split; intros H;
    try discriminate; try reflexivity.
  - apply R; reflexivity.
  - exfalso. apply H, R; reflexivity.
  - apply R in H. discriminate.
  - intros Hr. apply R in Hr. discriminate.
Qed.

(** C10: [updateSpec id actual] keeps the length of the list, rewrites exactly
    the entries whose id matches (with the new actual and its recomputed
    status) and leaves every other entry as it was; when no entry has that id
    the list comes back unchanged (a no-op, never an error). *)
Theorem updateSpec_frame :
  forall (i : Z) (a : option Q) (l : list InspectionSpec),
    length (updateSpec i a l) = length l /\
    (forall (n : nat) (e : InspectionSpec), nth_error l n = Some e ->
       (e.(id) <> i -> nth_error (updateSpec i a l) n = Some e) /\
       (e.(id) = i -> nth_error (updateSpec i a l) n =
                       Some (set_actual e a (calculateStatus a e.(min) e.(max))))) /\
    (Forall (fun e => e.(id) <> i) l -> updateSpec i a l = l).
Proof.
  intros i a l. unfold updateSpec. split; [apply length_map |]. split.
  - intros n e He. rewrite nth_error_map, He. simpl. split; intros Hid.
    + apply Z.eqb_neq in Hid. rewrite Hid. reflexivity.
    + apply Z.eqb_eq in Hid. rewrite Hid. reflexivity.
  - induction l as [| e t IH]; intros Hf; [reflexivity |].
    inversion Hf as [| ? ? He Ht]; subst. simpl.
    apply Z.eqb_neq in He. rewrite He. simpl. f_equal. apply IH, Ht.
Qed.

(** C8: [resetSpecs] rebuilds the list from the template [initialSpecs] alone
    (the current state is ignored), every entry with [actual] absent and status
    [Pending] and its other fields copied from the template, clears both lot
    flags, and is idempotent. *)
Theorem resetSpecs_spec :
  forall (initialSpecs : list InspectionSpec) (s : HookState),
    let r := resetSpecs initialSpecs s in
    (forall s' : HookState, resetSpecs initialSpecs s' = r) /\
    resetSpecs initialSpecs r = r /\
    r.(lotReleased) = false /\ r.(lotRejected) = false /\
    length r.(specs) = length initialSpecs /\
    (forall (n : nat) (t : InspectionSpec), nth_error initialSpecs n = Some t ->
       nth_error r.(specs) n =
         Some (mkSpec t.(id) t.(characteristic) t.(tool) t.(min) t.(max)
                      None Pending)).
Proof.
  intros initialSpecs s r. subst r.
  repeat split; try reflexivity.
  - apply length_map.
  - intros n t Ht. simpl. rewrite nth_error_map, Ht. reflexivity.
Qed.

(** C2: under the data-model invariant ([status] computed from [actual]),
    an approve attempt on an un-released lot is rejected with the
    "out-of-tolerance" toast when some entry is [Fail], and with the distinct
    "not all characteristics inspected" toast when no entry is [Fail] but some
    is [Pending]; a rejected attempt leaves the lot un-released, and the lot is
    released exactly when every entry has an actual value and none is [Fail]. *)
Theorem handleApprove_guards :
  forall (certificate_throws : bool) (s : ViewState),
    Forall spec_consistent s.(inspectionSpecs) ->
    s.(released) = false ->
    let l := s.(inspectionSpecs) in
    let res := handleApprove certificate_throws s in
    (Exists (fun e => e.(status) = Fail) l ->
       snd res = [ToastError msg_failures msg_failures_desc] /\
       (fst res).(released) = false) /\
    (~ Exists (fun e => e.(status) = Fail) l ->
     Exists (fun e => e.(status) = Pending) l ->
       snd res = [ToastError msg_incomplete msg_incomplete_desc] /\
       (fst res).(released) = false) /\
    msg_failures <> msg_incomplete /\
    ((fst res).(released) = true <->
       Forall (fun e => e.(actual) <> None) l /\
       ~ Exists (fun e => e.(status) = Fail) l).
Proof.
  intros t s Hc Hr l res. subst l res.
  pose proof (hasFailures_iff (inspectionSpecs s)) as HF.
  pose proof (allInspected_iff (inspectionSpecs s)) as HA.
  pose proof (consistent_pending_exists _ Hc) as HP.
  assert (Hm : msg_failures <> msg_incomplete)
    by (unfold msg_failures, msg_incomplete; discriminate).
  unfold handleApprove.
  destruct (hasFailures (inspectionSpecs s)) eqn:Ef;
    [| destruct (allInspected (inspectionSpecs s)) eqn:Ea]; simpl;
    (split; [| split; [| split; [exact Hm |]]]).
  - intros _. split; [reflexivity | exact Hr].
  - intros H. exfalso. apply H, HF. reflexivity.
  - split; [congruence |]. intros [_ H]. exfalso. apply H, HF. reflexivity.
  - intros H. apply HF in H. discriminate.
  - intros _ H. apply HP in H. exfalso. apply H, HA. reflexivity.
  - split; [intros _ | congruence]. split.
    + apply HA. reflexivity.
    + intros H. apply HF in H. discriminate.
  - intros H. apply HF in H. discriminate.
  - intros _ _. split; [reflexivity | exact Hr].
  - split; [congruence |]. intros [H _]. apply HA in H. discriminate.
Qed.

Lemma handleApprove_guards_witness :
  let s := mkView (updateSpec 1 (Some (6#10)) INITIAL_SPECS) false false
                  (Some DApprove) in
  Forall spec_consistent s.(inspectionSpecs) /\ s.(released) = false /\
  (let l := s.(inspectionSpecs) in
   let res := handleApprove false s in
   (Exists (fun e => e.(status) = Fail) l ->
      snd res = [ToastError msg_failures msg_failures_desc] /\
      (fst res).(released) = false) /\
   (~ Exists (fun e => e.(status) = Fail) l ->
    Exists (fun e => e.(status) = Pending) l ->
      snd res = [ToastError msg_incomplete msg_incomplete_desc] /\
      (fst res).(released) = false) /\
   msg_failures <> msg_incomplete /\
   ((fst res).(released) = true <->
      Forall (fun e => e.(actual) <> None) l /\
      ~ Exists (fun e => e.(status) = Fail) l)).
Proof.
  intros s.
  assert (Hc : Forall spec_consistent s.(inspectionSpecs))
    by (repeat (apply Forall_cons; [reflexivity |]); apply Forall_nil).
  split; [exact Hc | split; [reflexivity |]].
  apply (handleApprove_guards false s Hc). reflexivity.
Defined.

(** C3, a defect of [InspectorView]: [allPassed] is false on the empty list,
    but [handleApprove] does not consult it; from the initial screen on an
    empty list, clicking "APPROVE RELEASE" and confirming releases the lot.
    The other release checks ([allPassed] of [useInspection],
    [stats.allPass] of [useDynamicInspection]) require a non-empty list. *)
Lemma empty_specs_release_counterexample :
  ~ (allPassed [] = false /\
     forall (certificate_throws : bool),
       (fst (handleApprove certificate_throws
               (mkView [] false false (Some DApprove)))).(released) = false) /\
  exists s1 s2 e1 e2,
    ui_step [] (initialView []) ClickApprove = Some (s1, e1) /\
    ui_step [] s1 (ConfirmApprove false) = Some (s2, e2) /\
    s2.(released) = true.
Proof.
  split.
  - intros [_ H]. specialize (H false). discriminate H.
  - do 4 eexists. split; [reflexivity | split; [reflexivity | reflexivity]].
Qed.

(** C3, where the two guards part: [allPassed] is false on an empty
    specification list and true exactly on a non-empty list of [Pass]
    entries, while the Open -> Released guard of [handleApprove] checks only
    that no entry is [Fail] and every entry has an actual value, which holds
    vacuously on an empty list, so [handleApprove] releases an empty list. *)
Theorem empty_specs_allPassed_and_release :
  allPassed [] = false /\
  (forall (certificate_throws : bool) (r j : bool) (d : option Dialog),
     (fst (handleApprove certificate_throws (mkView [] r j d))).(released) = true) /\
  (forall l : list InspectionSpec,
     allPassed l = true <-> l <> [] /\ Forall (fun e => e.(status) = Pass) l).
Proof.
  split; [reflexivity | split].
  - intros t r j d. reflexivity.
  - intros l. unfold allPassed, passCount, countStatus.
    rewrite andb_true_iff, Nat.eqb_eq, Nat.ltb_lt. split.
    + intros [Hlen Hpos]. split; [intros ->; simpl in Hpos; lia |].
      apply filter_length_forallb in Hlen.
      apply Forall_forall. intros x Hx. apply Status_eqb_true.
      rewrite forallb_forall in Hlen. auto.
    + intros [Hne Hall]. split.
      * rewrite forallb_filter_id; [reflexivity |].
        apply forallb_forall. intros x Hx. apply Status_eqb_true.
        rewrite Forall_forall in Hall. auto.
      * destruct l; [congruence | simpl; lia].
Qed.

(** C4: in every state reachable from the initial screen (both flags false)
    through the verdict buttons, the confirmation dialog, the inputs and the
    hook's reset, at most one of [lotReleased] and [lotRejected] holds; every
    step other than the reset keeps a set flag set, and the reset clears both. *)
Theorem disposition_at_most_one :
  forall initialSpecs : list InspectionSpec,
    (forall s, reachable initialSpecs s ->
       ~ (s.(released) = true /\ s.(rejected) = true)) /\
    (forall s act s' eff, ui_step initialSpecs s act = Some (s', eff) ->
       act <> Reset ->
       (s.(released) = true -> s'.(released) = true) /\
       (s.(rejected) = true -> s'.(rejected) = true)) /\
    (forall s s' eff, ui_step initialSpecs s Reset = Some (s', eff) ->
       s'.(released) = false /\ s'.(rejected) = false).
Proof.
  intros init. split; [| split].
  - intros s Hr [H1 H2]. apply reachable_inv in Hr.
    unfold disposition_inv in Hr. rewrite H1, H2 in Hr. discriminate.
  - intros s act s' eff Hs Hact.
    destruct s as [l r j d]; destruct act as [| | | t | | i a |]; simpl in Hs.
    + destruct (negb r && negb j); [| discriminate].
      injection Hs as <- _. auto.
    + destruct (negb r && negb j); [| discriminate].
      injection Hs as <- _. auto.
    + destruct d; [| discriminate]. injection Hs as <- _. auto.
    + destruct d as [[|] |]; try discriminate. injection Hs as Hs.
      destruct (handleApprove_flags t (mkView l r j (Some DApprove))) as [Hj [_ Hr]].
      rewrite Hs in Hj, Hr. simpl in Hj, Hr. simpl. split.
      * intros ->. destruct Hr; assumption.
      * rewrite Hj. auto.
    + destruct d as [[|] |]; try discriminate. injection Hs as <- _. simpl. auto.
    + destruct (negb r && negb j); [| discriminate].
      injection Hs as <- _. auto.
    + exfalso. apply Hact. reflexivity.
  - intros s s' eff Hs. simpl in Hs. injection Hs as <- _. simpl. auto.
Qed.

(** C9: when both guards hold ([hasFailures] false, [allInspected] true),
    [handleApprove] sets [lotReleased] whether or not the certificate call
    throws; a throw is reported by the separate "Error generating certificate"
    toast instead of the success toast. In every call the certificate is
    generated exactly once when the lot gets released by it and never
    otherwise. *)
Theorem handleApprove_certificate_best_effort :
  forall (certificate_throws : bool) (s : ViewState),
    hasFailures s.(inspectionSpecs) = false ->
    allInspected s.(inspectionSpecs) = true ->
    (fst (handleApprove certificate_throws s)).(released) = true /\
    count_certificates (snd (handleApprove certificate_throws s)) = 1%nat /\
    snd (handleApprove certificate_throws s) =
      GenerateCertificate ::
        (if certificate_throws
         then [ToastError msg_cert_error msg_cert_error_desc]
         else [ToastSuccess msg_approved msg_approved_desc]) /\
    (forall (t : bool) (s0 : ViewState),
       s0.(released) = false ->
       count_certificates (snd (handleApprove t s0)) =
         if (fst (handleApprove t s0)).(released) then 1%nat else 0%nat).
Proof.
  intros t s Hf Ha. unfold handleApprove. rewrite Hf, Ha. simpl.
  split; [reflexivity |]. split; [destruct t; reflexivity |].
  split; [destruct t; reflexivity |].
  intros t0 s0 Hr0.
  destruct (hasFailures (inspectionSpecs s0));
    [| destruct (allInspected (inspectionSpecs s0))]; simpl;
    rewrite ?Hr0; [reflexivity | destruct t0; reflexivity | reflexivity].
Qed.

Lemma handleApprove_certificate_best_effort_witness :
  let s := mkView
    (updateSpec 4 (Some 45) (updateSpec 3 (Some (28#100))
      (updateSpec 2 (Some (1#4)) (updateSpec 1 (Some (1#2)) INITIAL_SPECS))))
    false false (Some DApprove) in
  hasFailures s.(inspectionSpecs) = false /\
  allInspected s.(inspectionSpecs) = true /\
  (fst (handleApprove true s)).(released) = true /\
  count_certificates (snd (handleApprove true s)) = 1%nat /\
  snd (handleApprove true s) =
    GenerateCertificate ::
      (if true
       then [ToastError msg_cert_error msg_cert_error_desc]
       else [ToastSuccess msg_approved msg_approved_desc]) /\
  (forall (t : bool) (s0 : ViewState),
     s0.(released) = false ->
     count_certificates (snd (handleApprove t s0)) =
       if (fst (handleApprove t s0)).(released) then 1%nat else 0%nat).
Proof.
  intros s.
  assert (Hf : hasFailures s.(inspectionSpecs) = false) by reflexivity.
  assert (Ha : allInspected s.(inspectionSpecs) = true) by reflexivity.
  split; [exact Hf | split; [exact Ha |]].
  exact (handleApprove_certificate_best_effort true s Hf Ha).
Defined.

(** C5: a numeric field with an absent value is [Pending] whatever its
    bounds; with a present value [v] it is [Pass] exactly when
    (min undefined or [v >= min]) and (max undefined or [v <= max]), and
    [Fail] otherwise, each optional bound checked on its own; [updateValue]
    stores this status for a numeric field. *)
Theorem validateNumericField_spec :
  forall mn mx : option Q,
    validateNumericField None mn mx = Pending /\
    (forall v : Q,
       let ok := (match mn with None => True | Some m => (m <= v)%Q end) /\
                 (match mx with None => True | Some m => (v <= m)%Q end) in
       (validateNumericField (Some v) mn mx = Pass <-> ok) /\
       (validateNumericField (Some v) mn mx = Fail <-> ~ ok)) /\
    (forall mismatch_status (f : FieldDefinition),
       f.(type) = Numeric -> f.(fmin) = mn -> f.(fmax) = mx ->
       fieldStatus mismatch_status f VNull = Pending /\
       forall q, fieldStatus mismatch_status f (VNum q) =
                 validateNumericField (Some q) mn mx).
Proof.
  intros mn mx. split; [reflexivity | split].
  - intros v ok.
    assert (Hp : validateNumericField (Some v) mn mx = Pass <-> ok).
    { subst ok. destruct mn as [m |], mx as [M |]; simpl;
        repeat match goal with |- context [Qltb ?a ?b] =>
                 let E := fresh "E" in destruct (Qltb a b) eqn:E end;
        rewrite ?Qltb_true, ?Qltb_false in *; intuition congruence. }
    split; [exact Hp |].
    pose proof (validateNumericField_not_pending v mn mx) as Hn.
    destruct (validateNumericField (Some v) mn mx); split; intros H.
    + contradiction.
    + exfalso. apply Hn. reflexivity.
    + discriminate.
    + exfalso. apply H, Hp. reflexivity.
    + intros Hok. apply Hp in Hok. discriminate.
    + reflexivity.
  - intros ms f Ht Hmn Hmx. unfold fieldStatus. rewrite Ht, Hmn, Hmx.
    split; reflexivity.
Qed.

(** C6: a select field with a non-empty value chosen is [Pass]; with no value
    chosen ([null] or the empty string) it is [Pending], whether the field is
    required or not; a select field is never [Fail]; [updateValue] stores
    this status for a select field. *)
Theorem validateSelectField_spec :
  forall req : bool,
    (forall v : string, v <> "" -> validateSelectField (Some v) req = Pass) /\
    validateSelectField None req = Pending /\
    validateSelectField (Some "") req = Pending /\
    (forall value, validateSelectField value req <> Fail) /\
    (forall mismatch_status (f : FieldDefinition),
       f.(type) = SelectField -> f.(required) = req ->
       fieldStatus mismatch_status f VNull = validateSelectField None req /\
       forall v, fieldStatus mismatch_status f (VStr v) =
                 validateSelectField (Some v) req).
Proof.
  intros r. split; [| split; [| split; [| split]]].
  - intros v Hv. unfold validateSelectField, str_truthy.
    apply String.eqb_neq in Hv. rewrite Hv. destruct r; reflexivity.
  - destruct r; reflexivity.
  - destruct r; reflexivity.
  - intros [v |]; unfold validateSelectField, str_truthy;
      [destruct (String.eqb v "") |]; destruct r; discriminate.
  - intros ms f Ht Hr. unfold fieldStatus. rewrite Ht, Hr. split; reflexivity.
Qed.

(** C7: [updateValue] drops every value stored for [fieldId] and appends one
    freshly computed value at the end (remove-then-insert): afterwards exactly
    one value has that id, the new one; applying it twice with the same
    arguments gives the same list as applying it once; it keeps each id at
    most once; and after a sequence of edits from the empty list the ids are
    in the order of their last edit, not in field order. *)
Theorem updateValue_remove_insert :
  forall mismatch_status (values : list InspectionValue) (fid : string)
         (newValue : JSValue) (field : FieldDefinition),
    let fresh := mkValue fid newValue (fieldStatus mismatch_status field newValue) in
    let u := updateValue mismatch_status values fid newValue field in
    u = filter (fun v => negb (String.eqb v.(fieldId) fid)) values ++ [fresh] /\
    filter (fun v => String.eqb v.(fieldId) fid) u = [fresh] /\
    updateValue mismatch_status u fid newValue field = u /\
    (NoDup (keys values) -> NoDup (keys u)) /\
    (forall edits : list (string * JSValue * FieldDefinition),
       keys (applyEdits mismatch_status [] edits) =
       dedup_last (map (fun '(i, _, _) => i) edits)).
Proof.
  intros ms values fid nv f fresh u.
  split; [reflexivity |]. split; [| split; [| split]].
  - subst u fresh. unfold updateValue. rewrite filter_app. simpl.
    rewrite String.eqb_refl.
    replace (filter (fun v => String.eqb (fieldId v) fid)
               (filter (fun v => negb (String.eqb (fieldId v) fid)) values))
      with (@nil InspectionValue); [reflexivity |].
    induction values as [| v t IH]; [reflexivity |]. simpl.
    destruct (String.eqb (fieldId v) fid) eqn:E; simpl; rewrite ?E; exact IH.
  - subst u. unfold updateValue. rewrite filter_app, filter_idem. simpl.
    rewrite String.eqb_refl. simpl. rewrite <- app_assoc. reflexivity.
  - apply updateValue_nodup.
  - intros edits. apply (applyEdits_keys ms edits [] (NoDup_nil _)).
Qed.

(** * Further properties of the code *)

(** ** Static validator and its callers *)

Lemma allPassed_forallb (l : list InspectionSpec) :
  allPassed l = forallb (fun s => Status_eqb s.(status) Pass) l && Nat.ltb 0 (length l).
Proof.
  unfold allPassed, passCount, countStatus.
  destruct (forallb (fun s => Status_eqb s.(status) Pass) l) eqn:E.
  - rewrite forallb_filter_id by exact E. rewrite Nat.eqb_refl. reflexivity.
  - destruct (Nat.eqb _ _) eqn:E2; [| reflexivity].
    apply Nat.eqb_eq, filter_length_forallb in E2. congruence.
Qed.

Lemma forallb_and_not_existsb {A : Type} (f g : A -> bool) (l : list A) :
  forallb f l && negb (existsb g l) = forallb (fun x => f x && negb (g x)) l.
Proof.
  induction l as [| x t IH]; [reflexivity |]. simpl.
  rewrite negb_orb, <- IH. destruct (f x), (g x); simpl; try reflexivity.
  destruct (forallb f t); reflexivity.
Qed.

(** The three counts of [useInspection] partition the list: every entry is
    counted exactly once as passed, failed or pending. *)
Theorem counts_partition :
  forall l : list InspectionSpec,
    (passCount l + failCount l + pendingCount l)%nat = length l.
Proof.
  induction l as [| e t IH]; [reflexivity |].
  unfold passCount, failCount, pendingCount, countStatus in *. simpl.
  destruct (status e); simpl; lia.
Qed.

(** The hook's [hasFailed] ([failCount > 0]) and the inspector view's
    [hasFailures] ([some(status === "fail")]) agree on every list. *)
Theorem hasFailed_eq_hasFailures :
  forall l : list InspectionSpec, hasFailed l = hasFailures l.
Proof.
  induction l as [| e t IH]; [reflexivity |].
  unfold hasFailed, failCount, countStatus in *. unfold hasFailures in *. simpl.
  destruct (Status_eqb (status e) Fail); simpl; [reflexivity | exact IH].
Qed.

(** [updateSpec] keeps the data-model invariant: if every entry's status is
    [calculateStatus] of its actual value and bounds, this still holds after
    the update. *)
Theorem updateSpec_keeps_consistent :
  forall (i : Z) (a : option Q) (l : list InspectionSpec),
    Forall spec_consistent l -> Forall spec_consistent (updateSpec i a l).
Proof.
  intros i a l H. unfold updateSpec. apply Forall_map.
  eapply Forall_impl; [| exact H]. intros e He.
  destruct (negb (Z.eqb (id e) i)); [exact He | reflexivity].
Qed.

Lemma updateSpec_keeps_consistent_witness :
  Forall spec_consistent INITIAL_SPECS /\
  Forall spec_consistent (updateSpec 2 (Some (3#10)) INITIAL_SPECS).
Proof.
  assert (H : Forall spec_consistent INITIAL_SPECS)
    by (repeat (apply Forall_cons; [reflexivity |]); apply Forall_nil).
  split; [exact H | exact (updateSpec_keeps_consistent 2 (Some (3#10)) INITIAL_SPECS H)].
Defined.

(** Two updates of the same id: the last one wins. *)
Theorem updateSpec_last_wins :
  forall (i : Z) (a b : option Q) (l : list InspectionSpec),
    updateSpec i a (updateSpec i b l) = updateSpec i a l.
Proof.
  intros i a b l. unfold updateSpec. rewrite map_map. apply map_ext.
  intros e. destruct (Z.eqb (id e) i) eqn:E; simpl; rewrite ?E; reflexivity.
Qed.

(** Updates of two different ids commute. *)
Theorem updateSpec_commute :
  forall (i j : Z) (a b : option Q) (l : list InspectionSpec),
    i <> j ->
    updateSpec i a (updateSpec j b l) = updateSpec j b (updateSpec i a l).
Proof.
  intros i j a b l Hij. unfold updateSpec. rewrite !map_map. apply map_ext.
  intros e. destruct (Z.eqb (id e) i) eqn:Ei, (Z.eqb (id e) j) eqn:Ej; simpl;
    rewrite ?Ei, ?Ej; try reflexivity.
  apply Z.eqb_eq in Ei, Ej. congruence.
Qed.

Lemma updateSpec_commute_witness :
  (1 <> 2)%Z /\
  updateSpec 1 (Some (1#2)) (updateSpec 2 (Some (1#4)) INITIAL_SPECS) =
  updateSpec 2 (Some (1#4)) (updateSpec 1 (Some (1#2)) INITIAL_SPECS).
Proof.
  assert (H : (1 <> 2)%Z) by lia.
  split; [exact H | exact (updateSpec_commute 1 2 (Some (1#2)) (Some (1#4)) INITIAL_SPECS H)].
Defined.

(** After [resetSpecs] every entry is pending and consistent: the pending
    count is the template's length, nothing passed or failed, [allPassed] and
    [hasFailed] are false. *)
Theorem resetSpecs_counts :
  forall (initialSpecs : list InspectionSpec) (s : HookState),
    let r := (resetSpecs initialSpecs s).(specs) in
    Forall spec_consistent r /\
    pendingCount r = length initialSpecs /\
    passCount r = 0%nat /\ failCount r = 0%nat /\
    allPassed r = false /\ hasFailed r = false.
Proof.
  intros init s r. subst r. simpl.
  unfold allPassed, hasFailed, passCount, failCount, pendingCount, countStatus.
  induction init as [| e t IH]; [repeat split; constructor |].
  simpl. destruct IH as [Hc [Hp [Hs [Hf [Ha Hh]]]]].
  repeat split.
  - constructor; [reflexivity | exact Hc].
  - simpl. rewrite Hp. reflexivity.
  - exact Hs.
  - exact Hf.
  - rewrite Hs. destruct (length (map _ t)); reflexivity.
  - exact Hh.
Qed.

(** On lists that keep the data-model invariant, the hook's [allPassed] is the
    inspector view's release guard [allPass] ([allInspected && !hasFailures])
    strengthened with "the list is not empty". *)
Theorem allPassed_is_guard_nonempty :
  forall l : list InspectionSpec,
    Forall spec_consistent l ->
    allPassed l = allPass l && negb (Nat.eqb (length l) 0).
Proof.
  intros l Hc. rewrite allPassed_forallb. unfold allPass, allInspected, hasFailures.
  rewrite forallb_and_not_existsb. f_equal.
  - induction Hc as [| e t He _ IH]; [reflexivity |]. simpl. rewrite IH. f_equal.
    unfold spec_consistent in He. rewrite He.
    destruct (actual e) as [x |]; simpl; [| reflexivity].
    destruct (Qle_bool (min e) x && Qle_bool x (max e)); reflexivity.
  - destruct (length l); reflexivity.
Qed.

Lemma allPassed_is_guard_nonempty_witness :
  Forall spec_consistent (updateSpec 1 (Some (1#2)) INITIAL_SPECS) /\
  allPassed (updateSpec 1 (Some (1#2)) INITIAL_SPECS) =
  allPass (updateSpec 1 (Some (1#2)) INITIAL_SPECS) &&
  negb (Nat.eqb (length (updateSpec 1 (Some (1#2)) INITIAL_SPECS)) 0).
Proof.
  assert (H : Forall spec_consistent (updateSpec 1 (Some (1#2)) INITIAL_SPECS))
    by (repeat (apply Forall_cons; [reflexivity |]); apply Forall_nil).
  split; [exact H | exact (allPassed_is_guard_nonempty _ H)].
Defined.

(** The page's own [handleUpdateSpec] computes exactly what the hook's
    [updateSpec] computes. *)
Theorem handleUpdateSpec_eq_updateSpec :
  forall (i : Z) (a : option Q) (l : list InspectionSpec),
    handleUpdateSpec i a l = updateSpec i a l.
Proof.
  intros i a l. unfold handleUpdateSpec, updateSpec. apply map_ext.
  intros e. destruct (negb (Z.eqb (id e) i)); [reflexivity |].
  destruct a; reflexivity.
Qed.

(** [handleEndShift] puts the template back as it is; on a template whose
    entries are all cleared (no actual value, pending) this is the hook's
    [resetSpecs]. *)
Theorem handleEndShift_eq_resetSpecs :
  forall (template : list InspectionSpec) (s : HookState),
    Forall (fun t => t.(actual) = None /\ t.(status) = Pending) template ->
    handleEndShift template s = resetSpecs template s.
Proof.
  intros template s H. unfold handleEndShift, resetSpecs. f_equal.
  induction H as [| [i c tl mn mx a st] t [Ha Hs] _ IH]; [reflexivity |].
  simpl in *. subst. rewrite <- IH. reflexivity.
Qed.

Lemma handleEndShift_eq_resetSpecs_witness :
  Forall (fun t => t.(actual) = None /\ t.(status) = Pending) INITIAL_SPECS /\
  handleEndShift INITIAL_SPECS (mkHook [] true false) =
  resetSpecs INITIAL_SPECS (mkHook [] true false).
Proof.
  assert (H : Forall (fun t => t.(actual) = None /\ t.(status) = Pending) INITIAL_SPECS)
    by (repeat (apply Forall_cons; [split; reflexivity |]); apply Forall_nil).
  split; [exact H | exact (handleEndShift_eq_resetSpecs _ _ H)].
Defined.

(** ** Disposition *)

(** Rejecting is unconditional: from any open lot with the dialog closed,
    whatever its readings (all pending included), "REJECT LOT" followed by
    "Confirm Rejection" rejects the lot, leaves it un-released and keeps the
    readings. *)
Theorem reject_unconditional :
  forall (initialSpecs l : list InspectionSpec),
    let s := mkView l false false None in
    ui_step initialSpecs s ClickReject = Some (mkView l false false (Some DReject), []) /\
    ui_step initialSpecs (mkView l false false (Some DReject)) ConfirmReject =
      Some (mkView l false true None, [ToastError msg_rejected msg_rejected_desc]).
Proof. intros init l s. split; reflexivity. Qed.

(** Once a reachable state is released or rejected, every action other than
    the reset is unavailable: the verdict buttons are gone, no dialog is open
    and the inputs are disabled; so neither the readings nor the verdict can
    change, and no further certificate is generated, until a reset. *)
Theorem finalized_only_reset :
  forall (initialSpecs : list InspectionSpec) (s : ViewState) (act : Action),
    reachable initialSpecs s ->
    s.(released) || s.(rejected) = true ->
    act <> Reset ->
    ui_step initialSpecs s act = None.
Proof.
  intros init s act Hr Hf Hact. apply reachable_inv in Hr.
  unfold disposition_inv in Hr.
  destruct s as [l r j d]; simpl in *.
  assert (Hd : d = None).
  { destruct d; [| reflexivity]. destruct r, j; simpl in *; discriminate. }
  subst d.
  destruct act; simpl; try reflexivity.
  - destruct r, j; simpl in *; congruence.
  - destruct r, j; simpl in *; congruence.
  - destruct r, j; simpl in *; congruence.
  - exfalso. apply Hact. reflexivity.
Qed.

Lemma finalized_only_reset_witness :
  reachable INITIAL_SPECS (mkView INITIAL_SPECS false true None) /\
  (false || true) = true /\ EditActual 1 (Some (1#2)) <> Reset /\
  ui_step INITIAL_SPECS (mkView INITIAL_SPECS false true None)
          (EditActual 1 (Some (1#2))) = None.
Proof.
  assert (H1 : reachable INITIAL_SPECS (mkView INITIAL_SPECS false false (Some DReject))).
  { eapply (reach_step INITIAL_SPECS (initialView INITIAL_SPECS) ClickReject);
      [apply reach_init | reflexivity]. }
  assert (H2 : reachable INITIAL_SPECS (mkView INITIAL_SPECS false true None)).
  { eapply (reach_step INITIAL_SPECS _ ConfirmReject); [exact H1 | reflexivity]. }
  assert (H3 : (false || true) = true) by reflexivity.
  assert (H4 : EditActual 1 (Some (1#2)) <> Reset) by discriminate.
  split; [exact H2 | split; [exact H3 | split; [exact H4 |]]].
  exact (finalized_only_reset INITIAL_SPECS _ _ H2 H3 H4).
Defined.

(** ** Dynamic inspection: lookup and summary *)

Lemma find_app {A : Type} (p : A -> bool) (l1 l2 : list A) :
  find p (l1 ++ l2) = match find p l1 with Some x => Some x | None => find p l2 end.
Proof.
  induction l1 as [| x t IH]; [reflexivity |]. simpl.
  destruct (p x); [reflexivity | exact IH].
Qed.

Lemma find_key_unique (vs : list InspectionValue) (v : InspectionValue) (k : string) :
  NoDup (keys vs) -> In v vs -> v.(fieldId) = k ->
  find (fun w => String.eqb w.(fieldId) k) vs = Some v.
Proof.
  induction vs as [| w t IH]; intros Hnd Hin Hk; [destruct Hin |].
  inversion Hnd as [| ? ? Hw Ht]; subst. simpl.
  destruct Hin as [-> | Hin].
  - rewrite String.eqb_refl. reflexivity.
  - destruct (String.eqb (fieldId w) (fieldId v)) eqn:E.
    + apply String.eqb_eq in E. exfalso. apply Hw. rewrite E.
      apply in_map. exact Hin.
    + apply IH; auto.
Qed.

Lemma NoDup_keys_filter (p : InspectionValue -> bool) (vs : list InspectionValue) :
  NoDup (keys vs) -> NoDup (keys (filter p vs)).
Proof.
  induction vs as [| v t IH]; intros H; [constructor |].
  inversion H as [| ? ? Hv Ht]; subst. simpl.
  destruct (p v); simpl; [| apply IH, Ht].
  constructor; [| apply IH, Ht].
  intros Hin. apply Hv. unfold keys in *. apply in_map_iff in Hin as [w [Hw Hin]].
  apply filter_In in Hin as [Hin _]. rewrite <- Hw. apply in_map, Hin.
Qed.

Lemma getValue_found (vs : list InspectionValue) (k : string) :
  (getValue vs k).(vstatus) <> Pending ->
  In (getValue vs k) vs /\ (getValue vs k).(fieldId) = k.
Proof.
  unfold getValue. destruct (find _ vs) eqn:E; [| simpl; congruence].
  intros _. apply find_some in E as [Hin Hk]. apply String.eqb_eq in Hk. auto.
Qed.

(** Under the form's invariants (field ids distinct, value ids distinct and
    all among the field ids), [allInspected] means every field has a
    non-pending value. *)
Lemma allInspected_fields (fields : list FieldDefinition) (vs : list InspectionValue) :
  NoDup (map field_id fields) -> NoDup (keys vs) ->
  incl (keys vs) (map field_id fields) ->
  ((dynStats fields vs).(stats_allInspected) = true <->
   Forall (fun f => (getValue vs f.(field_id)).(vstatus) <> Pending) fields).
Proof.
  intros HF Hnd Hinc. simpl. fold nonpending.
  set (C := keys (filter nonpending vs)).
  assert (HC : NoDup C) by (apply NoDup_keys_filter, Hnd).
  assert (HCF : incl C (map field_id fields)).
  { intros c Hc. apply Hinc. unfold C, keys in *.
    apply in_map_iff in Hc as [v [Hv Hin]]. apply filter_In in Hin as [Hin _].
    rewrite <- Hv. apply in_map, Hin. }
  assert (HlenC : length C = length (filter nonpending vs)) by apply length_map.
  rewrite Nat.eqb_eq, Forall_forall. split.
  - intros Heq f Hf.
    assert (Hinc2 : incl (map field_id fields) C).
    { apply NoDup_length_incl; [exact HC | | exact HCF].
      rewrite HlenC, Heq, length_map. lia. }
    assert (Hk : In (field_id f) C) by (apply Hinc2, in_map, Hf).
    unfold C, keys in Hk. apply in_map_iff in Hk as [v [Hv Hin]].
    apply filter_In in Hin as [Hin Hnp].
    unfold getValue. rewrite (find_key_unique vs v (field_id f) Hnd Hin Hv).
    unfold nonpending in Hnp. intros Hp. rewrite Hp in Hnp. discriminate.
  - intros Hall.
    assert (HFC : incl (map field_id fields) C).
    { intros k Hk. apply in_map_iff in Hk as [f [Hfk Hf]]. subst k.
      specialize (Hall f Hf). destruct (getValue_found vs (field_id f) Hall) as [Hin Hk].
      rewrite <- Hk. unfold C, keys. apply in_map, filter_In. split; [exact Hin |].
      unfold nonpending. destruct (vstatus (getValue vs (field_id f))); simpl;
        congruence. }
    apply NoDup_incl_length in HFC; [| exact HF].
    apply NoDup_incl_length in HCF; [| exact HC].
    rewrite length_map in HFC, HCF. lia.
Qed.

(** The states of the form: every edit is for one of the part's fields. *)
Lemma applyEdits_invariants mismatch_status (fields : list FieldDefinition) :
  forall (edits : list (string * JSValue * FieldDefinition)) (vs : list InspectionValue),
    NoDup (keys vs) -> incl (keys vs) (map field_id fields) ->
    Forall (fun e => In (fst (fst e)) (map field_id fields)) edits ->
    NoDup (keys (applyEdits mismatch_status vs edits)) /\
    incl (keys (applyEdits mismatch_status vs edits)) (map field_id fields).
Proof.
  induction edits as [| [[i v] f] es IH]; intros vs Hnd Hinc He; [auto |].
  inversion He as [| ? ? Hi Hes]; subst. simpl in Hi.
  unfold applyEdits. simpl. apply IH; [apply updateValue_nodup, Hnd | | exact Hes].
  rewrite updateValue_keys. intros k Hk. apply in_app_or in Hk as [Hk | [<- | []]].
  - apply filter_In in Hk as [Hk _]. apply Hinc, Hk.
  - exact Hi.
Qed.

Lemma find_filter_weaker {A : Type} (p q : A -> bool) (l : list A) :
  (forall x, q x = true -> p x = true) -> find q (filter p l) = find q l.
Proof.
  intros Hqp. induction l as [| x t IH]; [reflexivity |]. simpl.
  destruct (q x) eqn:Eq.
  - rewrite (Hqp x Eq). simpl. rewrite Eq. reflexivity.
  - destruct (p x); simpl; [rewrite Eq |]; exact IH.
Qed.

Lemma find_filter_none {A : Type} (p q : A -> bool) (l : list A) :
  (forall x, q x = true -> p x = false) -> find q (filter p l) = None.
Proof.
  intros Hqp. induction l as [| x t IH]; [reflexivity |]. simpl.
  destruct (p x) eqn:Ep; [| exact IH]. simpl.
  destruct (q x) eqn:Eq; [| exact IH].
  rewrite (Hqp x Eq) in Ep. discriminate.
Qed.

Lemma no_fail_values (fields : list FieldDefinition) (vs : list InspectionValue) :
  NoDup (keys vs) -> incl (keys vs) (map field_id fields) ->
  Forall (fun f => (getValue vs f.(field_id)).(vstatus) = Pass) fields ->
  filter (fun v => Status_eqb v.(vstatus) Fail) vs = [].
Proof.
  intros Hnd Hinc Hall. rewrite Forall_forall in Hall.
  destruct (filter _ vs) as [| v t] eqn:E; [reflexivity | exfalso].
  assert (Hv : In v (filter (fun v => Status_eqb v.(vstatus) Fail) vs))
    by (rewrite E; left; reflexivity).
  apply filter_In in Hv as [Hin Hf]. apply Status_eqb_true in Hf.
  assert (Hk : In (fieldId v) (map field_id fields)) by (apply Hinc, in_map, Hin).
  apply in_map_iff in Hk as [f [Hfk Hf']].
  specialize (Hall f Hf'). unfold getValue in Hall.
  rewrite (find_key_unique vs v (field_id f) Hnd Hin (eq_sym Hfk)) in Hall.
  congruence.
Qed.

(** * Further properties: dynamic inspection form *)

(** [updateValue] followed by [getValue]: the edited field reads back the
    new value with the status its validator gives; every other field reads
    what it read before. *)
Theorem getValue_updateValue mismatch_status (vs : list InspectionValue)
  (fid g : string) (nv : JSValue) (f : FieldDefinition) :
  getValue (updateValue mismatch_status vs fid nv f) g =
  if String.eqb g fid then mkValue fid nv (fieldStatus mismatch_status f nv)
  else getValue vs g.
Proof.
  unfold getValue, updateValue. rewrite find_app.
  destruct (String.eqb g fid) eqn:Eg.
  - apply String.eqb_eq in Eg. subst g.
    rewrite find_filter_none.
    + simpl. rewrite String.eqb_refl. reflexivity.
    + intros x Hx. rewrite Hx. reflexivity.
  - rewrite find_filter_weaker.
    + destruct (find _ vs); [reflexivity |]. simpl.
      rewrite String.eqb_sym, Eg. reflexivity.
    + intros x Hx. apply String.eqb_eq in Hx. rewrite Hx, Eg. reflexivity.
Qed.

(** The summary of [useDynamicInspection]: the completed values are the
    passed and the failed ones; with no values (initially and after
    [reset]) [allPass] is false and [allInspected] holds only for a part
    that has no fields. *)
Theorem dynStats_counts (fields : list FieldDefinition) (vs : list InspectionValue) :
  (dynStats fields vs).(completed) =
    ((dynStats fields vs).(passed) + (dynStats fields vs).(failed))%nat /\
  (dynStats fields []).(stats_allPass) = false /\
  ((dynStats fields []).(stats_allInspected) = true <-> fields = []).
Proof.
  split; [| split].
  - simpl. induction vs as [| v t IH]; [reflexivity |]. simpl.
    destruct (vstatus v); simpl; rewrite IH; lia.
  - simpl. destruct fields; reflexivity.
  - simpl. destruct fields; simpl; split; congruence.
Qed.

(** In every state the form reaches from no values by edits of the part's
    fields (the field ids being distinct), [allInspected] holds exactly
    when every field reads a non-pending value. *)
Theorem allInspected_reachable mismatch_status (fields : list FieldDefinition)
  (edits : list (string * JSValue * FieldDefinition)) :
  NoDup (map field_id fields) ->
  Forall (fun e => In (fst (fst e)) (map field_id fields)) edits ->
  let vs := applyEdits mismatch_status [] edits in
  ((dynStats fields vs).(stats_allInspected) = true <->
   Forall (fun f => (getValue vs f.(field_id)).(vstatus) <> Pending) fields).
Proof.
  intros HF He vs.
  destruct (applyEdits_invariants mismatch_status fields edits []
              (NoDup_nil _) (incl_nil_l _) He) as [Hnd Hinc].
  apply allInspected_fields; assumption.
Qed.

(** In the same states, [allPass] holds exactly when the part has fields
    and every one of them reads a passing value. *)
Theorem allPass_reachable mismatch_status (fields : list FieldDefinition)
  (edits : list (string * JSValue * FieldDefinition)) :
  NoDup (map field_id fields) ->
  Forall (fun e => In (fst (fst e)) (map field_id fields)) edits ->
  let vs := applyEdits mismatch_status [] edits in
  ((dynStats fields vs).(stats_allPass) = true <->
   fields <> [] /\
   Forall (fun f => (getValue vs f.(field_id)).(vstatus) = Pass) fields).
Proof.
  intros HF He vs.
  destruct (applyEdits_invariants mismatch_status fields edits []
              (NoDup_nil _) (incl_nil_l _) He) as [Hnd Hinc].
  pose proof (allInspected_fields fields vs HF Hnd Hinc) as Hai.
  change (stats_allPass (dynStats fields vs))
    with (stats_allInspected (dynStats fields vs)
          && Nat.eqb (failed (dynStats fields vs)) 0
          && Nat.ltb 0 (length fields)).
  rewrite !andb_true_iff, Nat.eqb_eq, Nat.ltb_lt. split.
  - intros [[Hi Hf0] Hpos]. split; [destruct fields; simpl in *; [lia | discriminate] |].
    apply Hai in Hi. rewrite Forall_forall in *. intros f Hf.
    specialize (Hi f Hf). destruct (getValue_found vs (field_id f) Hi) as [Hin _].
    simpl in Hf0. apply length_zero_iff_nil in Hf0.
    destruct (vstatus (getValue vs (field_id f))) eqn:Es; [congruence | reflexivity |].
    exfalso. assert (Hx : In (getValue vs (field_id f))
                        (filter (fun v => Status_eqb v.(vstatus) Fail) vs)).
    { apply filter_In. split; [exact Hin | rewrite Es; reflexivity]. }
    rewrite Hf0 in Hx. destruct Hx.
  - intros [Hne Hall]. split; [split |].
    + apply Hai. eapply Forall_impl; [| exact Hall]. intros f Hp. simpl in Hp.
      rewrite Hp. discriminate.
    + simpl. rewrite (no_fail_values fields vs Hnd Hinc Hall). reflexivity.
    + destruct fields; [congruence | simpl; lia].
Qed.

Lemma allInspected_reachable_witness :
  let fd := mkField "bore" "Bore" Numeric true (Some 1) (Some 2) None None in
  let fv := mkField "visual" "Visual" BooleanField true None None None None in
  let edits := [("bore", VNum (3#2), fd); ("visual", VBool false, fv)] in
  NoDup (map field_id [fd; fv]) /\
  Forall (fun e => In (fst (fst e)) (map field_id [fd; fv])) edits /\
  (let vs := applyEdits (fun _ _ => Pending) [] edits in
   (dynStats [fd; fv] vs).(stats_allInspected) = true <->
   Forall (fun f => (getValue vs f.(field_id)).(vstatus) <> Pending) [fd; fv]).
Proof.
  intros fd fv edits.
  assert (H1 : NoDup (map field_id [fd; fv])).
  { simpl. apply NoDup_cons; [intros [H | []]; discriminate |].
    apply NoDup_cons; [intros [] | apply NoDup_nil]. }
  assert (H2 : Forall (fun e => In (fst (fst e)) (map field_id [fd; fv])) edits).
  { unfold edits, fd, fv. simpl.
    repeat apply Forall_cons; try apply Forall_nil; simpl; auto. }
  split; [exact H1 | split; [exact H2 |]].
  exact (allInspected_reachable (fun _ _ => Pending) [fd; fv] edits H1 H2).
Defined.

Lemma allPass_reachable_witness :
  let fd := mkField "bore" "Bore" Numeric true (Some 1) (Some 2) None None in
  let fv := mkField "visual" "Visual" BooleanField true None None None None in
  let edits := [("bore", VNum (3#2), fd); ("visual", VBool true, fv)] in
  NoDup (map field_id [fd; fv]) /\
  Forall (fun e => In (fst (fst e)) (map field_id [fd; fv])) edits /\
  (let vs := applyEdits (fun _ _ => Pending) [] edits in
   (dynStats [fd; fv] vs).(stats_allPass) = true <->
   [fd; fv] <> [] /\
   Forall (fun f => (getValue vs f.(field_id)).(vstatus) = Pass) [fd; fv]).
Proof.
  intros fd fv edits.
  assert (H1 : NoDup (map field_id [fd; fv])).
  { simpl. apply NoDup_cons; [intros [H | []]; discriminate |].
    apply NoDup_cons; [intros [] | apply NoDup_nil]. }
  assert (H2 : Forall (fun e => In (fst (fst e)) (map field_id [fd; fv])) edits).
  { unfold edits, fd, fv. simpl.
    repeat apply Forall_cons; try apply Forall_nil; simpl; auto. }
  split; [exact H1 | split; [exact H2 |]].
  exact (allPass_reachable (fun _ _ => Pending) [fd; fv] edits H1 H2).
Defined.

(** ** Partial shipments: helper lemmas *)

Lemma is_ws_lt (c : ascii) : is_ws c = true -> (nat_of_ascii c < 48)%nat.
Proof.
  unfold is_ws. intros H. apply existsb_exists in H as [x [Hx Hn]].
  apply Nat.eqb_eq in Hn. rewrite Hn.
  simpl in Hx. repeat destruct Hx as [<- | Hx]; lia.
Qed.

Lemma digit_not_ws (c : ascii) : digit_value c <> None -> is_ws c = false.
Proof.
  unfold digit_value. intros Hd.
  destruct (Nat.leb 48 (nat_of_ascii c)) eqn:E; [| simpl in Hd; congruence].
  apply Nat.leb_le in E.
  destruct (is_ws c) eqn:W; [| reflexivity].
  apply is_ws_lt in W. lia.
Qed.

Lemma trim_end_empty (s : string) :
  trim_end s = "" -> forall n c, String.get n s = Some c -> is_ws c = true.
Proof.
  induction s as [| c r IH]; intros H n d Hg; [discriminate |].
  simpl in H. destruct (is_ws c) eqn:W; simpl in H; [| discriminate].
  destruct (String.eqb (trim_end r) "") eqn:E; [| discriminate].
  apply String.eqb_eq in E.
  destruct n as [| n]; simpl in Hg.
  - injection Hg as <-. exact W.
  - exact (IH E n d Hg).
Qed.

Lemma read_digits_first (s : string) (acc z : Z) :
  read_digits s acc false = Some z ->
  exists d r, s = String d r /\ digit_value d <> None.
Proof.
  destruct s as [| d r]; simpl; [discriminate |].
  destruct (digit_value d) eqn:E; [| discriminate].
  intros _. exists d, r. split; [reflexivity | congruence].
Qed.

Lemma read_digits_seen (s : string) (acc : Z) : read_digits s acc true <> None.
Proof.
  revert acc. induction s as [| c r IH]; intros acc; simpl; [discriminate |].
  destruct (digit_value c); [apply IH | discriminate].
Qed.

(** A string [parseInt] reads a number from is not blank. *)
Lemma parseInt10_not_blank (v : string) (q : Z) :
  parseInt10 v = Some q -> String.eqb (js_trim v) "" = false.
Proof.
  unfold parseInt10, js_trim. intros H.
  assert (Hng : exists n d, String.get n (trim_start v) = Some d /\ digit_value d <> None).
  { destruct (trim_start v) as [| c r] eqn:Es; [simpl in H; discriminate |].
    destruct (Ascii.eqb c "-"%char); [| destruct (Ascii.eqb c "+"%char)];
      destruct (read_digits _ 0 false) eqn:Er; try discriminate;
      apply read_digits_first in Er as [d [r' [Hr Hd]]].
    - exists 1%nat, d. rewrite Hr. simpl. auto.
    - exists 1%nat, d. rewrite Hr. simpl. auto.
    - exists 0%nat, d. rewrite Hr. simpl. auto. }
  destruct Hng as [n [d [Hg Hd]]].
  destruct (String.eqb (trim_end (trim_start v)) "") eqn:E; [| reflexivity].
  apply String.eqb_eq in E. pose proof (trim_end_empty _ E n d Hg) as W.
  rewrite (digit_not_ws d Hd) in W. discriminate.
Qed.

Lemma validateQty_same_parse (r : Q) (v w : string) (q : Z) :
  parseInt10 v = Some q -> parseInt10 w = Some q ->
  validateQty r v = validateQty r w.
Proof.
  intros Hv Hw. unfold validateQty.
  rewrite (parseInt10_not_blank v q Hv), (parseInt10_not_blank w q Hw), Hv, Hw.
  reflexivity.
Qed.

Lemma read_digits_dot (ds rest : string) :
  (forall n c, String.get n ds = Some c -> digit_value c <> None) ->
  forall acc seen,
    read_digits (String.append ds (String "." rest)) acc seen = read_digits ds acc seen.
Proof.
  induction ds as [| c r IH]; intros Hd acc seen; [reflexivity |].
  simpl. destruct (digit_value c) eqn:E.
  - apply IH. intros n d Hg. exact (Hd (S n) d Hg).
  - exfalso. exact (Hd 0%nat c eq_refl E).
Qed.

Lemma validateQty_None_inv (r : Q) (v : string) :
  validateQty r v = None ->
  exists q, parseInt10 v = Some q /\ (0 < q)%Z /\ (inject_Z q <= r)%Q.
Proof.
  unfold validateQty. destruct (String.eqb (js_trim v) ""); [discriminate |].
  destruct (parseInt10 v) as [q |]; [| discriminate].
  destruct (q <=? 0)%Z eqn:Eq; [discriminate |].
  destruct (Qltb r (inject_Z q)) eqn:El; [discriminate |].
  intros _. exists q. apply Z.leb_gt in Eq. apply Qltb_false in El. auto.
Qed.

Lemma shippedQty_app (l : list PartialShipment) (s : PartialShipment) :
  shippedQty (l ++ [s]) = shippedQty l + s.(quantity).
Proof. unfold shippedQty. rewrite fold_left_app. reflexivity. Qed.

(** * Further properties: partial shipments *)

(** What [validateQty] accepts: exactly the inputs [parseInt] reads as a
    positive integer not above the remaining quantity; the blank-input
    check never rejects such an input. *)
Theorem validateQty_accepts (r : Q) (v : string) :
  validateQty r v = None <->
  exists q, parseInt10 v = Some q /\ (0 < q)%Z /\ (inject_Z q <= r)%Q.
Proof.
  split; [apply validateQty_None_inv |].
  intros [q [Hp [Hq Hr]]]. unfold validateQty.
  rewrite (parseInt10_not_blank v q Hp), Hp.
  replace (q <=? 0)%Z with false by (symmetry; apply Z.leb_gt; exact Hq).
  replace (Qltb r (inject_Z q)) with false by (symmetry; apply Qltb_false; exact Hr).
  reflexivity.
Qed.

(** An input of digits followed by a decimal part is validated as its
    integer part: [parseInt] stops at the point. *)
Theorem validateQty_truncates (r : Q) (ds rest : string) :
  ds <> "" ->
  (forall n c, String.get n ds = Some c -> digit_value c <> None) ->
  validateQty r (String.append ds (String "." rest)) = validateQty r ds.
Proof.
  intros Hne Hd.
  destruct ds as [| c t]; [congruence |].
  assert (Hc : digit_value c <> None) by exact (Hd 0%nat c eq_refl).
  assert (Hsign : forall x, Ascii.eqb c x = true -> digit_value x = None -> False).
  { intros x Hx Hx'. apply Ascii.eqb_eq in Hx. subst x. congruence. }
  assert (Hp : parseInt10 (String.append (String c t) (String "." rest)) = parseInt10 (String c t)).
  { unfold parseInt10. simpl. rewrite (digit_not_ws c Hc).
    destruct (Ascii.eqb c "-"%char) eqn:Em;
      [exfalso; exact (Hsign _ Em eq_refl) |].
    destruct (Ascii.eqb c "+"%char) eqn:Ep;
      [exfalso; exact (Hsign _ Ep eq_refl) |].
    change (String.append (String c t) (String "." rest)) with (String c (String.append t (String "." rest))).
    rewrite <- (read_digits_dot (String c t) rest Hd). reflexivity. }
  destruct (parseInt10 (String c t)) as [q |] eqn:Eq.
  - apply (validateQty_same_parse r _ _ q); [exact Hp | exact Eq].
  - exfalso. unfold parseInt10 in Eq. simpl in Eq. rewrite (digit_not_ws c Hc) in Eq.
    destruct (Ascii.eqb c "-"%char) eqn:Em; [exfalso; exact (Hsign _ Em eq_refl) |].
    destruct (Ascii.eqb c "+"%char) eqn:Ep; [exfalso; exact (Hsign _ Ep eq_refl) |].
    simpl in Eq. destruct (digit_value c) eqn:Ed; [| congruence].
    destruct (read_digits t _ true) eqn:Er; [discriminate |].
    exact (read_digits_seen t _ Er).
Qed.

Lemma validateQty_truncates_witness :
  "2" <> "" /\
  (forall n c, String.get n "2" = Some c -> digit_value c <> None) /\
  validateQty 10 (String.append "2" (String "." "5")) = validateQty 10 "2".
Proof.
  assert (H1 : "2" <> "") by discriminate.
  assert (H2 : forall n c, String.get n "2" = Some c -> digit_value c <> None).
  { intros [| n] c Hg; simpl in Hg; [| destruct n; discriminate].
    injection Hg as <-. vm_compute. discriminate. }
  split; [exact H1 | split; [exact H2 |]].
  exact (validateQty_truncates 10 "2" "5" H1 H2).
Defined.

(** [handleAddShipment] either records the error and leaves the shipments
    and the input as they are, or appends exactly one shipment, for the
    tracker's order, lot and inspector, whose quantity is a positive integer,
    and then closes the dialog, clears the input and the error. *)
Theorem handleAddShipment_outcome (now_id now_iso : string) (t : Tracker) :
  let t' := handleAddShipment now_id now_iso t in
  (t'.(shipments) = t.(shipments) /\ t'.(inputError) <> None /\
   t'.(inputQty) = t.(inputQty))
  \/
  (exists s, t'.(shipments) = t.(shipments) ++ [s] /\
     s.(ship_id) = String.append "ship-" now_id /\
     s.(orderId) = t.(t_orderId) /\ s.(lotNumber) = t.(t_lotNumber) /\
     s.(timestamp) = now_iso /\ s.(inspectedBy) = t.(inspectorName) /\
     (exists z, s.(quantity) = inject_Z z /\ (0 < z)%Z) /\
     t'.(showAddDialog) = false /\ t'.(inputQty) = "" /\ t'.(inputError) = None).
Proof.
  simpl. unfold handleAddShipment.
  destruct (validateQty _ (inputQty t)) eqn:E.
  - left. simpl. split; [reflexivity | split; [discriminate | reflexivity]].
  - right. destruct (validateQty_None_inv _ _ E) as [q [Hp [Hq _]]].
    rewrite Hp. eexists. simpl.
    split; [reflexivity |].
    repeat (split; [reflexivity |]).
    split; [exists q; split; [reflexivity | exact Hq] |].
    auto.
Qed.

(** The tracker never ships more than ordered. For an integer order quantity
    of at most 2^53 and shipments of non-negative integer quantities whose
    total does not exceed it, [handleAddShipment] keeps both properties.
    In this range every sum and difference [calculations] computes is an
    integer of at most 2^53, which JavaScript numbers hold exactly, so the
    rational arithmetic of the model is that of the code. *)
Theorem handleAddShipment_within_total (now_id now_iso : string) (t : Tracker)
  (T : Z) :
  t.(totalQty) = inject_Z T -> (0 <= T <= 2 ^ 53)%Z ->
  Forall (fun s => exists z, s.(quantity) = inject_Z z /\ (0 <= z)%Z) t.(shipments) ->
  (shippedQty t.(shipments) <= t.(totalQty))%Q ->
  let t' := handleAddShipment now_id now_iso t in
  t'.(totalQty) = t.(totalQty) /\
  Forall (fun s => exists z, s.(quantity) = inject_Z z /\ (0 <= z)%Z) t'.(shipments) /\
  (shippedQty t'.(shipments) <= t'.(totalQty))%Q.
Proof.
  intros _ _ Hint Hle. simpl. unfold handleAddShipment.
  destruct (validateQty _ (inputQty t)) eqn:E; [simpl; auto |].
  destruct (validateQty_None_inv _ _ E) as [q [Hp [Hq Hr]]].
  rewrite Hp. simpl. split; [reflexivity | split].
  - apply Forall_app. split; [exact Hint |].
    constructor; [| constructor]. exists q. split; [reflexivity | lia].
  - rewrite shippedQty_app. simpl. unfold remainingQty in Hr. lra.
Qed.

Lemma handleAddShipment_within_total_witness :
  let t := mkTracker "PO-1" "LOT-1" (inject_Z 10) "Inspector"
             [mkShipment "ship-1" "PO-1" "LOT-1" (inject_Z 3) "t0" "Inspector"]
             true "7" None in
  t.(totalQty) = inject_Z 10 /\ (0 <= 10 <= 2 ^ 53)%Z /\
  Forall (fun s => exists z, s.(quantity) = inject_Z z /\ (0 <= z)%Z) t.(shipments) /\
  (shippedQty t.(shipments) <= t.(totalQty))%Q /\
  (let t' := handleAddShipment "2" "t1" t in
   t'.(totalQty) = t.(totalQty) /\
   Forall (fun s => exists z, s.(quantity) = inject_Z z /\ (0 <= z)%Z) t'.(shipments) /\
   (shippedQty t'.(shipments) <= t'.(totalQty))%Q).
Proof.
  intros t.
  assert (H1 : t.(totalQty) = inject_Z 10) by reflexivity.
  assert (H2 : (0 <= 10 <= 2 ^ 53)%Z) by (split; vm_compute; intros H; discriminate H).
  assert (H3 : Forall (fun s => exists z, s.(quantity) = inject_Z z /\ (0 <= z)%Z)
                 t.(shipments)).
  { apply Forall_cons; [| apply Forall_nil]. exists 3%Z. split; [reflexivity | lia]. }
  assert (H4 : (shippedQty t.(shipments) <= t.(totalQty))%Q)
    by (vm_compute; intros H; discriminate H).
  split; [exact H1 | split; [exact H2 | split; [exact H3 | split; [exact H4 |]]]].
  exact (handleAddShipment_within_total "2" "t1" t 10 H1 H2 H3 H4).
Defined.

(** Once the order is complete (nothing remains), [handleAddShipment]
    appends nothing, whatever the input: it only records an error. *)
Theorem handleAddShipment_complete (now_id now_iso : string) (t : Tracker) :
  isComplete t.(totalQty) t.(shipments) = true ->
  (handleAddShipment now_id now_iso t).(shipments) = t.(shipments) /\
  (handleAddShipment now_id now_iso t).(inputError) <> None.
Proof.
  intros Hc. unfold handleAddShipment.
  destruct (validateQty _ (inputQty t)) eqn:E.
  - simpl. split; [reflexivity | discriminate].
  - exfalso. destruct (validateQty_None_inv _ _ E) as [q [_ [Hq Hr]]].
    unfold isComplete in Hc. apply Qle_bool_iff in Hc.
    assert (Hq' : 0 < inject_Z q).
    { change 0 with (inject_Z 0). rewrite <- Zlt_Qlt. exact Hq. }
    lra.
Qed.

Lemma handleAddShipment_complete_witness :
  let t := mkTracker "PO-1" "LOT-1" 10 "Inspector"
             [mkShipment "ship-1" "PO-1" "LOT-1" 10 "t0" "Inspector"] true "3" None in
  isComplete t.(totalQty) t.(shipments) = true /\
  (handleAddShipment "2" "t1" t).(shipments) = t.(shipments) /\
  (handleAddShipment "2" "t1" t).(inputError) <> None.
Proof.
  intros t.
  assert (H : isComplete t.(totalQty) t.(shipments) = true) by (vm_compute; reflexivity).
  split; [exact H |].
  exact (handleAddShipment_complete "2" "t1" t H).
Defined.
